(** * gistit: the request validators of the cloud functions

    Source: [services/functions/src/checks.ts].

    The validators are embedded as they are written: JavaScript numbers are
    IEEE 754 binary64 values (Rocq's primitive [float]), an optional argument
    is an [option], the module-level [defs] object and the logging channel of
    [firebase-functions] form the state that the exported functions run in,
    and a [throw] is an outcome of its own. *)

From Stdlib Require Import ZArith Bool List String Ascii Lia.
From Stdlib Require Import Floats.
Import ListNotations.

Local Open Scope string_scope.

(** ** JavaScript numbers and strings *)

Module Js.

(** The Number type.  [NaN], both infinities and both zeros are values. *)
Definition number : Type := float.

(** The round-to-nearest double of an integer: what a numeric literal or a
    [length] evaluates to. *)
Definition of_Z (z : Z) : number :=
  SF2Prim (binary_normalize prec emax z 0%Z false).

(** [x < y], [x > y], [x <= y] and [x === y] on numbers. *)
Definition lt (x y : number) : bool := (x <? y)%float.
Definition gt (x y : number) : bool := (y <? x)%float.
Definition le (x y : number) : bool := (x <=? y)%float.
Definition strict_eq (x y : number) : bool := (x =? y)%float.

(** [ToBoolean] on a number: [NaN], [+0] and [-0] are falsy. *)
Definition to_boolean (x : number) : bool := negb (is_nan x || is_zero x).

(** An argument declared [value?: number]: [None] is [undefined]. *)
Definition optional : Type := option number.

(** [ToBoolean] of such an argument; [undefined] is falsy. *)
Definition truthy (v : optional) : bool :=
  match v with
  | Some x => to_boolean x
  | None => false
  end.

(** Relational operators with a possibly undefined left operand:
    [ToNumber(undefined)] is [NaN], which compares false with everything. *)
Definition opt_gt (v : optional) (y : number) : bool :=
  match v with
  | Some x => gt x y
  | None => false
  end.

Definition opt_lt (v : optional) (y : number) : bool :=
  match v with
  | Some x => lt x y
  | None => false
  end.

(** [s.length] *)
Definition length (s : string) : number := of_Z (Z.of_nat (String.length s)).

(** [s?.length] on a possibly absent string. *)
Definition opt_length (s : option string) : optional :=
  match s with
  | Some s => Some (length s)
  | None => None
  end.

(** [s[0]]: the one-character string at index 0, [undefined] when [s] is
    empty. *)
Definition first (s : string) : option string :=
  match s with
  | EmptyString => None
  | String c _ => Some (String c EmptyString)
  end.

(** [v === p] for [v] a string or [undefined] and [p] a string. *)
Definition opt_str_eq (v : option string) (p : string) : bool :=
  match v with
  | Some s => String.eqb s p
  | None => false
  end.

End Js.

(** ** The configuration and the environment of the validators *)

(** [interface RangeObj { MIN: number; MAX: number }] *)
Record RangeObj : Type := mkRange {
  MIN : Js.number;
  MAX : Js.number
}.

(** Modelled from the spec: [defs.json], the record that [checks.ts] imports
    as [defs], is not among the sources.  Its keys and their types are those
    the specification lists (a required hash length, two one-character origin
    tags, three [{MIN, MAX}] ranges) and those the code reads.  The values are
    left open: every statement below is about an arbitrary record. *)
Record BoundsConfig : Type := mkConfig {
  HASH_LENGTH : Js.number;
  HASH_P2P_PREFIX : string;
  HASH_SERVER_PREFIX : string;
  AUTHOR_CHAR_LENGTH : RangeObj;
  DESCRIPTION_CHAR_LENGTH : RangeObj;
  FILE_SIZE : RangeObj
}.

(** [Error(message)] *)
Inductive error : Type :=
| Error (message : string).

(** The three errors the validators raise, under the names of the
    specification's taxonomy. *)
Definition InvalidHashFormat : error := Error "Invalid gistit hash format".
Definition InvalidLength : error :=
  Error "Invalid author, description or secret character length".
Definition FileSizeNotAllowed : error := Error "File size not allowed".

(** What code of the module can observe and change: the imported [defs]
    object, which is an ordinary mutable object, the lines sent to
    [__fn.logger.log], oldest first, and the environment of the process
    ([process.env]), by name. *)
Record world : Type := mkWorld {
  defs : BoundsConfig;
  logger : list string;
  env : list (string * string)
}.

(** A call either returns or throws. *)
Inductive outcome (A : Type) : Type :=
| Returned (a : A)
| Thrown (e : error).

Arguments Returned {A} a.
Arguments Thrown {A} e.

(** Computations of the module: a state and error monad over [world]. *)
Definition M (A : Type) : Type := world -> outcome A * world.

Definition ret {A : Type} (a : A) : M A := fun w => (Returned a, w).

Definition bind {A B : Type} (m : M A) (k : A -> M B) : M B :=
  fun w =>
    match m w with
    | (Returned a, w') => k a w'
    | (Thrown e, w') => (Thrown e, w')
    end.

Definition throw {A : Type} (e : error) : M A := fun w => (Thrown e, w).

(** [defs.KEY] *)
Definition read {A : Type} (key : BoundsConfig -> A) : M A :=
  fun w => (Returned (key (defs w)), w).

(** [__fn.logger.log(line)] *)
Definition log (line : string) : M unit :=
  fun w =>
    (Returned tt,
     {| defs := defs w; logger := (logger w ++ [line])%list; env := env w |}).

(** [defs.KEY = value], written as the function that updates the record.
    The validators contain no assignment; this is what one would be. *)
Definition assign (update : BoundsConfig -> BoundsConfig) : M unit :=
  fun w =>
    (Returned tt,
     {| defs := update (defs w); logger := logger w; env := env w |}).

(** [process.env[name]]: the first binding of [name], [undefined] when there
    is none.  The validators do not read the environment either. *)
Fixpoint lookup (name : string) (bindings : list (string * string))
  : option string :=
  match bindings with
  | [] => None
  | (k, v) :: rest => if String.eqb k name then Some v else lookup name rest
  end.

Definition getenv (name : string) : M (option string) :=
  fun w => (Returned (lookup name (env w)), w).

(** [a && b] in a condition: [b] is evaluated only when [a] holds. *)
Definition andM (a b : M bool) : M bool :=
  bind a (fun x => if x then b else ret false).

Declare Scope js_scope.
Delimit Scope js_scope with js.
Notation "x <- m ;; k" := (bind m (fun x => k))
  (at level 61, m at next level, right associativity) : js_scope.
Local Open Scope js_scope.

(** ** The validators *)

(** [[
function paramValueInRange(obj: RangeObj, value?: number): boolean {
  if (value && value > obj.MAX && value < obj.MIN) return false;
  return true;
}
]] *)
Definition paramValueInRange (obj : RangeObj) (value : Js.optional) : bool :=
  if Js.truthy value && Js.opt_gt value (MAX obj) && Js.opt_lt value (MIN obj)
  then false
  else true.

(** [[
export function checkHash(hash: string): void {
  if (hash.length === defs.HASH_LENGTH) {
    switch (hash[0]) {
      case defs.HASH_P2P_PREFIX:    __fn.logger.log("p2p");    break;
      case defs.HASH_SERVER_PREFIX: __fn.logger.log("server"); break;
      default: break;
    }
  } else throw Error("Invalid gistit hash format");
}
]] *)
Definition checkHash (hash : string) : M unit :=
  n <- read HASH_LENGTH ;;
  if Js.strict_eq (Js.length hash) n then
    p2p <- read HASH_P2P_PREFIX ;;
    if Js.opt_str_eq (Js.first hash) p2p then log "p2p"
    else
      server <- read HASH_SERVER_PREFIX ;;
      if Js.opt_str_eq (Js.first hash) server then log "server"
      else ret tt
  else throw (Error "Invalid gistit hash format").

(** [[
export function checkParamsCharLength(author: string, description: string): void {
  if (
    paramValueInRange(defs.AUTHOR_CHAR_LENGTH, author?.length) &&
    paramValueInRange(defs.DESCRIPTION_CHAR_LENGTH, description?.length)
  )
    return;
  else throw Error("Invalid author, description or secret character length");
}
]]
    The arguments are optional strings: the code reads them through [?.]. *)
Definition checkParamsCharLength (author description : option string)
  : M unit :=
  ok <- andM
          (a <- read AUTHOR_CHAR_LENGTH ;;
           ret (paramValueInRange a (Js.opt_length author)))
          (d <- read DESCRIPTION_CHAR_LENGTH ;;
           ret (paramValueInRange d (Js.opt_length description))) ;;
  if ok then ret tt
  else throw (Error "Invalid author, description or secret character length").

(** [[
export function checkFileSize(size: number): void {
  if (paramValueInRange(defs.FILE_SIZE, size)) return;
  else throw Error("File size not allowed");
}
]] *)
Definition checkFileSize (size : Js.number) : M unit :=
  r <- read FILE_SIZE ;;
  if paramValueInRange r (Some size) then ret tt
  else throw (Error "File size not allowed").

(** [paramValueInRange] as a call inside the module.  An object is passed by
    reference: [obj] says where the range lives ([defs.FILE_SIZE], say, or a
    constant for an object of the caller's own), and [obj.MAX] and [obj.MIN]
    are read from there when the condition reaches them. *)
Definition paramValueInRange_at (obj : BoundsConfig -> RangeObj)
    (value : Js.optional) : M bool :=
  if Js.truthy value then
    max <- read (fun d => MAX (obj d)) ;;
    if Js.opt_gt value max then
      min <- read (fun d => MIN (obj d)) ;;
      if Js.opt_lt value min then ret false else ret true
    else ret true
  else ret true.

(** The outcome of a run and the world it leaves. *)
Definition result {A : Type} (m : M A) (w : world) : outcome A := fst (m w).
Definition final {A : Type} (m : M A) (w : world) : world := snd (m w).

(** ** Notions the statements use *)

(** The world after the lines [lines] were logged. *)
Definition emit (w : world) (lines : list string) : world :=
  {| defs := defs w; logger := (logger w ++ lines)%list; env := env w |}.

(** [hash.length === defs.HASH_LENGTH] holds. *)
Definition length_matches (d : BoundsConfig) (hash : string) : Prop :=
  Js.strict_eq (Js.length hash) (HASH_LENGTH d) = true.

(** The lines [checkHash] logs for a hash of the required length. *)
Definition classification (d : BoundsConfig) (hash : string) : list string :=
  if Js.opt_str_eq (Js.first hash) (HASH_P2P_PREFIX d) then ["p2p"]
  else if Js.opt_str_eq (Js.first hash) (HASH_SERVER_PREFIX d) then ["server"]
  else [].

(** The lengths a string can have: the integers that a number holds exactly. *)
Definition safe_length (z : Z) : Prop := (0 <= z < 2 ^ 53)%Z.

(** A run leaves [defs] as it found it. *)
Definition preserves_config {A : Type} (m : M A) : Prop :=
  forall w, defs (final m w) = defs w.

(** The outcome of a run and the lines it appends to the log are the same in
    any two worlds with the same [defs]. *)
Definition determined_by_config {A : Type} (m : M A) : Prop :=
  forall w1 w2, defs w1 = defs w2 ->
    result m w1 = result m w2 /\
    exists lines,
      logger (final m w1) = (logger w1 ++ lines)%list /\
      logger (final m w2) = (logger w2 ++ lines)%list.

(** Both together. *)
Definition pure_validator {A : Type} (m : M A) : Prop :=
  preserves_config m /\ determined_by_config m.

(** ** Sample values

    Ranges and configurations of the documented shape, used to evaluate the
    validators on concrete inputs. *)

Definition range_1_10 : RangeObj := {| MIN := 1%float; MAX := 10%float |}.
Definition range_10_1 : RangeObj := {| MIN := 10%float; MAX := 1%float |}.

Definition sample_defs : BoundsConfig :=
  {| HASH_LENGTH := 33%float;
     HASH_P2P_PREFIX := "@";
     HASH_SERVER_PREFIX := "#";
     AUTHOR_CHAR_LENGTH := {| MIN := 3%float; MAX := 30%float |};
     DESCRIPTION_CHAR_LENGTH := {| MIN := 10%float; MAX := 100%float |};
     FILE_SIZE := {| MIN := 20%float; MAX := 50000%float |} |}.

Definition degenerate_defs : BoundsConfig :=
  {| HASH_LENGTH := 33%float;
     HASH_P2P_PREFIX := "@";
     HASH_SERVER_PREFIX := "#";
     AUTHOR_CHAR_LENGTH := {| MIN := 3%float; MAX := 30%float |};
     DESCRIPTION_CHAR_LENGTH := {| MIN := 10%float; MAX := 100%float |};
     FILE_SIZE := range_10_1 |}.

Definition fresh (d : BoundsConfig) : world :=
  {| defs := d; logger := []; env := [] |}.

Definition hash_p2p : string := "@0123456789abcdef0123456789abcdef".
Definition hash_server : string := "#0123456789abcdef0123456789abcdef".
Definition hash_other : string := "x0123456789abcdef0123456789abcdef".


Definition long_tag_defs : BoundsConfig :=
  {| HASH_LENGTH := 33%float;
     HASH_P2P_PREFIX := "@@";
     HASH_SERVER_PREFIX := "#";
     AUTHOR_CHAR_LENGTH := {| MIN := 3%float; MAX := 30%float |};
     DESCRIPTION_CHAR_LENGTH := {| MIN := 10%float; MAX := 100%float |};
     FILE_SIZE := {| MIN := 20%float; MAX := 50000%float |} |}.

(** ** The theme toggle

    Source: [app/src/hooks/ColorMode.tsx].

    [[
export function useColorMode() {
  const [mounted, setMounted] = useState(false)
  const { theme, setTheme } = useTheme()

  useEffect(() => setMounted(true), [])
  if (!mounted) return null

  return () => setTheme(theme === 'dark' ? 'light' : 'dark')
}
    ]]

    A render of the hook works with three things that are handed to it: the
    [mounted] cell that React keeps for [useState(false)], and the [theme]
    and the [setTheme] that [useTheme] returns.  The last two belong to the
    theme library, which is not part of this repository: the state [store]
    it keeps, the theme [theme_of] it reports for a state and the effect of
    its [setTheme] on a state are left open. *)

(** [theme === 'dark' ? 'light' : 'dark'] for a theme name or [undefined]. *)
Definition toggled (theme : option string) : string :=
  if Js.opt_str_eq theme "dark" then "light" else "dark".

Section ThemeToggle.

Variable store : Type.
Variable theme_of : store -> option string.
Variable setTheme : string -> store -> store.

(** One render: [null] while not mounted, otherwise the function that the
    component calls on a click.  The function closes over the [theme] of this
    render. *)
Definition useColorMode (mounted : bool) (theme : option string)
  : option (store -> store) :=
  if negb mounted then None
  else Some (fun s => setTheme (toggled theme) s).

(** A click on a mounted component: the hook is rendered with the theme
    reported for the current state, and the function it returned is
    called. *)
Definition click (s : store) : store :=
  match useColorMode true (theme_of s) with
  | Some toggle => toggle s
  | None => s
  end.

(** [setTheme] takes effect: after [setTheme(t)] the reported theme is
    [t]. *)
Definition takes_effect : Prop :=
  forall t s, theme_of (setTheme t s) = Some t.

End ThemeToggle.

Arguments useColorMode {store} setTheme mounted theme.
Arguments click {store} theme_of setTheme s.
Arguments takes_effect {store} theme_of setTheme.

(** The simplest library state: the theme name itself, which [setTheme]
    overwrites. *)
Definition plain_theme_of (s : option string) : option string := s.
Definition plain_setTheme (t : string) (s : option string) : option string :=
  Some t.

(** ** Order facts on binary64 numbers

    The comparison of two numbers is the comparison of their IEEE 754
    decompositions; on those it is a lexicographic order on sign, exponent and
    mantissa, with [NaN] incomparable to everything. *)

Section SpecOrder.

Lemma pos_cont_cmp (p q : positive) :
  Pos.compare_cont Eq p q = Pos.compare p q.
Proof. reflexivity. Qed.

Ltac split_compare :=
  repeat match goal with
    | H : context [Z.compare ?x ?y] |- _ =>
        destruct (Z.compare_spec x y); simpl in H
    | |- context [Z.compare ?x ?y] =>
        destruct (Z.compare_spec x y); simpl
    | H : context [Pos.compare ?p ?q] |- _ =>
        destruct (Pos.compare_spec p q); simpl in H
    | |- context [Pos.compare ?p ?q] =>
        destruct (Pos.compare_spec p q); simpl
    end.

Lemma SFcompare_Lt_trans (a b c : spec_float) :
  SFcompare a b = Some Lt -> SFcompare b c = Some Lt ->
  SFcompare a c = Some Lt.
Proof.
  destruct a as [sa|sa| |sa ma ea], b as [sb|sb| |sb mb eb],
           c as [sc|sc| |sc mc ec]; simpl;
    try discriminate; try reflexivity;
    repeat match goal with s : bool |- _ => destruct s end;
    try discriminate; try reflexivity;
    intros Hab Hbc; rewrite ?pos_cont_cmp in *; split_compare;
    try discriminate; try reflexivity; lia.
Qed.

Lemma SFcompare_Lt_asym (a c : spec_float) :
  SFcompare a c = Some Lt -> SFleb c a = false.
Proof.
  unfold SFleb.
  destruct a as [sa|sa| |sa ma ea], c as [sc|sc| |sc mc ec]; simpl;
    try discriminate; try reflexivity;
    repeat match goal with s : bool |- _ => destruct s end;
    try discriminate; try reflexivity;
    intros Hac; rewrite ?pos_cont_cmp in *; split_compare;
    try discriminate; try reflexivity; lia.
Qed.

Lemma SFltb_Lt (a b : spec_float) :
  SFltb a b = true -> SFcompare a b = Some Lt.
Proof.
  unfold SFltb. destruct (SFcompare a b) as [[ | | ]|]; congruence.
Qed.

End SpecOrder.

(** A number strictly above [hi] and strictly below [lo] puts [hi] strictly
    below [lo]. *)
Lemma gap_order (lo hi x : Js.number) :
  Js.gt x hi = true -> Js.lt x lo = true -> Js.gt lo hi = true.
Proof.
  unfold Js.gt, Js.lt. rewrite !ltb_spec. intros Hgt Hlt.
  apply SFltb_Lt in Hgt, Hlt. unfold SFltb.
  now rewrite (SFcompare_Lt_trans _ _ _ Hgt Hlt).
Qed.

(** No number lies strictly above [hi] and strictly below [lo] when
    [lo <= hi]. *)
Lemma gap_empty (lo hi x : Js.number) :
  Js.le lo hi = true -> Js.gt x hi = true -> Js.lt x lo = true -> False.
Proof.
  intros Hle Hgt Hlt. pose proof (gap_order _ _ _ Hgt Hlt) as Hgap.
  unfold Js.le, Js.gt in *. rewrite leb_spec in Hle.
  rewrite ltb_spec in Hgap. apply SFltb_Lt, SFcompare_Lt_asym in Hgap.
  congruence.
Qed.

(** ** Integers as numbers

    An integer from [0] to [2^53 - 1] is held exactly: rounding it to a
    double changes nothing, and the comparison of two such numbers is the
    comparison of the integers. *)

Section Integers.

Local Open Scope Z_scope.

Lemma iter_xO_digits (m k : positive) :
  digits2_pos (Pos.iter xO m k) = (digits2_pos m + k)%positive.
Proof.
  induction k as [|k IH] using Pos.peano_ind.
  - simpl. now rewrite Pos.add_1_r.
  - rewrite Pos.iter_succ. simpl. rewrite IH. now rewrite Pos.add_succ_r.
Qed.

Lemma iter_xO_value (m k : positive) :
  Zpos (Pos.iter xO m k) = Zpos m * 2 ^ Zpos k.
Proof.
  induction k as [|k IH] using Pos.peano_ind.
  - simpl. lia.
  - rewrite Pos.iter_succ, Pos2Z.inj_xO, IH, Pos2Z.inj_succ.
    rewrite Z.pow_succ_r by lia. lia.
Qed.

Lemma digits2_bounds (m : positive) :
  2 ^ (Zpos (digits2_pos m) - 1) <= Zpos m < 2 ^ Zpos (digits2_pos m).
Proof.
  induction m as [p IH|p IH|]; simpl digits2_pos.
  - rewrite Pos2Z.inj_succ.
    replace (Z.succ (Zpos (digits2_pos p)) - 1)
      with (Z.succ (Zpos (digits2_pos p) - 1)) by lia.
    rewrite !Z.pow_succ_r by lia. lia.
  - rewrite Pos2Z.inj_succ.
    replace (Z.succ (Zpos (digits2_pos p)) - 1)
      with (Z.succ (Zpos (digits2_pos p) - 1)) by lia.
    rewrite !Z.pow_succ_r by lia. lia.
  - simpl. lia.
Qed.

Lemma digits2_le_53 (m : positive) :
  Zpos m < 2 ^ 53 -> Zpos (digits2_pos m) <= 53.
Proof.
  intros Hm. pose proof (digits2_bounds m) as [Hlo _].
  assert (H : 2 ^ (Zpos (digits2_pos m) - 1) < 2 ^ 53) by lia.
  apply Z.pow_lt_mono_r_iff in H; lia.
Qed.

(** A mantissa of 53 digits with a small exponent is its own rounding. *)
Lemma binary_round_aux_exact (mz : positive) (ez : Z) :
  Zpos (digits2_pos mz) = 53 -> -52 <= ez <= 0 ->
  binary_round_aux prec emax false (Zpos mz) ez loc_Exact
    = S754_finite false mz ez.
Proof.
  intros Hd He.
  assert (Hf : fexp prec emax (Zpos (digits2_pos mz) + ez) - ez = 0).
  { rewrite Hd. unfold fexp, SpecFloat.emin, prec, emax. lia. }
  unfold binary_round_aux, shr_fexp. simpl Zdigits2. simpl shr_record_of_loc.
  rewrite Hf.
  cbn [shr shr_m loc_of_shr_record round_nearest_even shr_record_of_loc
       Zdigits2].
  rewrite Hf. cbn [shr shr_m].
  destruct (Z.leb_spec ez (emax - prec)) as [_|H]; [reflexivity|].
  unfold emax, prec in H. lia.
Qed.

Lemma normalize_exact (m : positive) :
  Zpos m < 2 ^ 53 ->
  exists mz ez,
    binary_normalize prec emax (Zpos m) 0 false = S754_finite false mz ez /\
    Zpos (digits2_pos mz) = 53 /\
    ez = Zpos (digits2_pos m) - 53 /\
    Zpos mz = Zpos m * 2 ^ (- ez).
Proof.
  intros Hm. pose proof (digits2_le_53 m Hm) as Hd.
  pose proof (Pos2Z.is_pos (digits2_pos m)) as Hpos.
  unfold binary_normalize, binary_round, shl_align.
  assert (Hf : fexp prec emax (Zpos (digits2_pos m) + 0)
               = Zpos (digits2_pos m) - 53).
  { unfold fexp, SpecFloat.emin, prec, emax. lia. }
  rewrite Hf, Z.sub_0_r.
  destruct (Zpos (digits2_pos m) - 53) as [|k|k] eqn:Hk; try lia.
  - exists m, 0. rewrite binary_round_aux_exact by lia.
    repeat split; try lia.
  - exists (Pos.iter xO m k), (Zneg k).
    assert (Hdz : Zpos (digits2_pos (Pos.iter xO m k)) = 53).
    { rewrite iter_xO_digits, Pos2Z.inj_add. lia. }
    rewrite binary_round_aux_exact by lia.
    repeat split; try lia.
    rewrite iter_xO_value. reflexivity.
Qed.

Lemma normalize_valid (z : Z) :
  0 <= z < 2 ^ 53 -> valid_binary (binary_normalize prec emax z 0 false) = true.
Proof.
  intros Hz. destruct z as [|m|m]; [reflexivity| |lia].
  destruct (normalize_exact m) as (mz & ez & -> & Hd & He & _); [lia|].
  pose proof (digits2_le_53 m ltac:(lia)) as Hle.
  pose proof (Pos2Z.is_pos (digits2_pos m)) as Hpos.
  unfold SpecFloat.valid_binary, bounded, canonical_mantissa.
  rewrite Hd. apply andb_true_iff. split.
  - apply Z.eqb_eq. unfold fexp, SpecFloat.emin, prec, emax. lia.
  - apply Z.leb_le. unfold prec, emax. lia.
Qed.

Lemma normalize_compare (a b : Z) :
  0 <= a < 2 ^ 53 -> 0 <= b < 2 ^ 53 ->
  SFcompare (binary_normalize prec emax a 0 false)
            (binary_normalize prec emax b 0 false) = Some (a ?= b).
Proof.
  intros Ha Hb. destruct a as [|p|p], b as [|q|q]; try lia; try reflexivity.
  - destruct (normalize_exact q) as (mz & ez & -> & _); [lia|]. reflexivity.
  - destruct (normalize_exact p) as (mz & ez & -> & _); [lia|]. reflexivity.
  - destruct (normalize_exact p) as (mp & ep & -> & _ & Hep & Hmp); [lia|].
    destruct (normalize_exact q) as (mq & eq & -> & _ & Heq & Hmq); [lia|].
    pose proof (digits2_le_53 p ltac:(lia)) as Hdp.
    pose proof (digits2_le_53 q ltac:(lia)) as Hdq.
    pose proof (digits2_bounds p) as Hbp.
    pose proof (digits2_bounds q) as Hbq.
    unfold SFcompare. f_equal.
    change (Pos.compare_cont Eq mp mq) with (Z.compare (Zpos mp) (Zpos mq)).
    destruct (Z.compare_spec ep eq) as [He|He|He].
    + rewrite Hmp, Hmq, He. symmetry. apply Zmult_compare_compat_r.
      apply Z.lt_gt, Z.pow_pos_nonneg; lia.
    + symmetry. apply Z.compare_lt_iff.
      assert (2 ^ Zpos (digits2_pos p) <= 2 ^ (Zpos (digits2_pos q) - 1))
        by (apply Z.pow_le_mono_r; lia).
      lia.
    + symmetry. apply Z.compare_gt_iff.
      assert (2 ^ Zpos (digits2_pos q) <= 2 ^ (Zpos (digits2_pos p) - 1))
        by (apply Z.pow_le_mono_r; lia).
      lia.
Qed.

Lemma of_Z_strict_eq (a b : Z) :
  safe_length a -> safe_length b ->
  Js.strict_eq (Js.of_Z a) (Js.of_Z b) = (a =? b).
Proof.
  intros Ha Hb. unfold Js.strict_eq, Js.of_Z.
  rewrite eqb_spec, !Prim2SF_SF2Prim by now apply normalize_valid.
  unfold SFeqb. rewrite normalize_compare by assumption.
  rewrite Z.eqb_compare. now destruct (a ?= b).
Qed.

Lemma of_Z_lt (a b : Z) :
  safe_length a -> safe_length b ->
  Js.lt (Js.of_Z a) (Js.of_Z b) = (a <? b).
Proof.
  intros Ha Hb. unfold Js.lt, Js.of_Z.
  rewrite ltb_spec, !Prim2SF_SF2Prim by now apply normalize_valid.
  unfold SFltb. rewrite normalize_compare by assumption.
  unfold Z.ltb. now destruct (a ?= b).
Qed.

End Integers.

(** ** What a run does, in closed form *)

Lemma emit_nil (w : world) : emit w [] = w.
Proof. destruct w as [d l e]. unfold emit. simpl. now rewrite app_nil_r. Qed.

Lemma checkHash_run (hash : string) (w : world) :
  checkHash hash w =
    if Js.strict_eq (Js.length hash) (HASH_LENGTH (defs w))
    then (Returned tt, emit w (classification (defs w) hash))
    else (Thrown InvalidHashFormat, w).
Proof.
  unfold checkHash, classification, bind, read. simpl.
  destruct (Js.strict_eq _ _); [|reflexivity].
  destruct (Js.opt_str_eq _ (HASH_P2P_PREFIX _)); [reflexivity|].
  destruct (Js.opt_str_eq _ (HASH_SERVER_PREFIX _)); [reflexivity|].
  unfold ret. now rewrite emit_nil.
Qed.

Lemma checkParamsCharLength_run (author description : option string)
    (w : world) :
  checkParamsCharLength author description w =
    if paramValueInRange (AUTHOR_CHAR_LENGTH (defs w)) (Js.opt_length author)
       && paramValueInRange (DESCRIPTION_CHAR_LENGTH (defs w))
            (Js.opt_length description)
    then (Returned tt, w)
    else (Thrown InvalidLength, w).
Proof.
  unfold checkParamsCharLength, andM, bind, read, ret. simpl.
  destruct (paramValueInRange (AUTHOR_CHAR_LENGTH _) _); simpl;
    [|reflexivity].
  destruct (paramValueInRange (DESCRIPTION_CHAR_LENGTH _) _); reflexivity.
Qed.

Lemma checkFileSize_run (size : Js.number) (w : world) :
  checkFileSize size w =
    if paramValueInRange (FILE_SIZE (defs w)) (Some size)
    then (Returned tt, w)
    else (Thrown FileSizeNotAllowed, w).
Proof.
  unfold checkFileSize, bind, read, ret. simpl.
  destruct (paramValueInRange _ _); reflexivity.
Qed.

(** ** The range policy *)

Lemma paramValueInRange_rejects (obj : RangeObj) (x : Js.number) :
  Js.to_boolean x = true -> Js.gt x (MAX obj) = true ->
  Js.lt x (MIN obj) = true ->
  paramValueInRange obj (Some x) = false.
Proof.
  intros Ht Hgt Hlt. unfold paramValueInRange. simpl.
  now rewrite Ht, Hgt, Hlt.
Qed.

Lemma paramValueInRange_normal (obj : RangeObj) (value : Js.optional) :
  Js.le (MIN obj) (MAX obj) = true -> paramValueInRange obj value = true.
Proof.
  intros Hle. unfold paramValueInRange.
  destruct value as [x|]; simpl; [|reflexivity].
  destruct (Js.to_boolean x); simpl; [|reflexivity].
  destruct (Js.gt x (MAX obj)) eqn:Hgt; simpl; [|reflexivity].
  destruct (Js.lt x (MIN obj)) eqn:Hlt; [|reflexivity].
  exfalso. exact (gap_empty _ _ _ Hle Hgt Hlt).
Qed.

(** C1: [paramValueInRange obj value] is [false] exactly when [value] is
    present and truthy, [value > obj.MAX] and [value < obj.MIN] all at once;
    in every other case it is [true], and so it is for an absent value. *)
Theorem paramValueInRange_false_iff (obj : RangeObj) (value : Js.optional) :
  (paramValueInRange obj value = false <->
     exists x, value = Some x /\ Js.to_boolean x = true /\
               Js.gt x (MAX obj) = true /\ Js.lt x (MIN obj) = true) /\
  (~ (exists x, value = Some x /\ Js.to_boolean x = true /\
                Js.gt x (MAX obj) = true /\ Js.lt x (MIN obj) = true) <->
     paramValueInRange obj value = true) /\
  paramValueInRange obj None = true.
Proof.
  assert (Hiff : paramValueInRange obj value = false <->
     exists x, value = Some x /\ Js.to_boolean x = true /\
               Js.gt x (MAX obj) = true /\ Js.lt x (MIN obj) = true).
  { split.
    - unfold paramValueInRange. destruct value as [x|]; simpl;
        [|discriminate].
      destruct (Js.to_boolean x) eqn:Ht, (Js.gt x (MAX obj)) eqn:Hgt,
               (Js.lt x (MIN obj)) eqn:Hlt; simpl; try discriminate.
      intros _. exists x. repeat split; assumption.
    - intros (x & -> & Ht & Hgt & Hlt).
      now apply paramValueInRange_rejects. }
  split; [exact Hiff|]. split; [|reflexivity].
  rewrite <- Hiff. destruct (paramValueInRange obj value); split;
    congruence.
Qed.

(** C2: for a range with [MIN <= MAX], [paramValueInRange] answers [true] for
    every value, present or absent, however far outside the range. *)
Theorem paramValueInRange_always_true (obj : RangeObj) (v : Js.optional) :
  Js.le (MIN obj) (MAX obj) = true -> paramValueInRange obj v = true.
Proof. apply paramValueInRange_normal. Qed.

(** The range [{MIN: 1, MAX: 10}] accepts [1000]. *)
Lemma paramValueInRange_1_10_1000 :
  Js.le (MIN range_1_10) (MAX range_1_10) = true /\
  paramValueInRange range_1_10 (Some 1000%float) = true.
Proof.
  split; [reflexivity|].
  apply (paramValueInRange_always_true range_1_10 (Some 1000%float)).
  reflexivity.
Defined.

(** C10: the guard tests the truthiness of [value], so [0] (and [-0]) passes
    like an absent value: [paramValueInRange] answers [true] on it for every
    range, also for one with [MIN > MAX] that rejects other values in its
    gap. *)
Theorem paramValueInRange_zero (obj : RangeObj) :
  paramValueInRange obj (Some 0%float) = true /\
  paramValueInRange obj (Some (-0)%float) = true /\
  paramValueInRange obj (Some 0%float) = paramValueInRange obj None /\
  paramValueInRange {| MIN := 10%float; MAX := (-10)%float |} (Some 5%float)
    = false /\
  paramValueInRange {| MIN := 10%float; MAX := (-10)%float |} (Some 0%float)
    = true.
Proof. repeat split. Qed.

(** C9: the rejecting branch can be reached.  A truthy value strictly above
    [MAX] and strictly below [MIN] is rejected: [paramValueInRange] answers
    [false] on it, and [checkFileSize] throws under a configuration whose
    [FILE_SIZE] is that range.  Such a range is degenerate: [MIN > MAX] holds
    and [MIN <= MAX] does not. *)
Theorem degenerate_range_rejects (obj : RangeObj) (x : Js.number) (w : world) :
  Js.to_boolean x = true ->
  Js.gt x (MAX obj) = true ->
  Js.lt x (MIN obj) = true ->
  paramValueInRange obj (Some x) = false /\
  Js.gt (MIN obj) (MAX obj) = true /\
  Js.le (MIN obj) (MAX obj) = false /\
  (FILE_SIZE (defs w) = obj ->
   checkFileSize x w = (Thrown FileSizeNotAllowed, w)).
Proof.
  intros Ht Hgt Hlt.
  pose proof (paramValueInRange_rejects obj x Ht Hgt Hlt) as Hrej.
  split; [exact Hrej|]. split; [|split].
  - exact (gap_order _ _ _ Hgt Hlt).
  - destruct (Js.le (MIN obj) (MAX obj)) eqn:Hle; [|reflexivity].
    exfalso. exact (gap_empty _ _ _ Hle Hgt Hlt).
  - intros <-. now rewrite checkFileSize_run, Hrej.
Qed.

(** The range [{MIN: 10, MAX: 1}] rejects [5], and [checkFileSize(5)] throws
    when it is the configured [FILE_SIZE]. *)
Lemma degenerate_range_rejects_10_1_5 :
  Js.to_boolean 5%float = true /\
  Js.gt 5%float (MAX range_10_1) = true /\
  Js.lt 5%float (MIN range_10_1) = true /\
  paramValueInRange range_10_1 (Some 5%float) = false /\
  checkFileSize 5%float (fresh degenerate_defs)
    = (Thrown FileSizeNotAllowed, fresh degenerate_defs).
Proof.
  destruct (degenerate_range_rejects range_10_1 5%float
              (fresh degenerate_defs) eq_refl eq_refl eq_refl)
    as (Hrej & _ & _ & Hthrow).
  split; [reflexivity|]. split; [reflexivity|]. split; [reflexivity|].
  split; [exact Hrej | exact (Hthrow eq_refl)].
Defined.

(** ** [checkFileSize] *)

(** C5: under a configuration whose [FILE_SIZE] has [MIN <= MAX],
    [checkFileSize size] returns without throwing, and without any other
    effect, for every number [size]: every finite one, and the infinities and
    [NaN] as well. *)
Theorem checkFileSize_never_throws (w : world) (size : Js.number) :
  Js.le (MIN (FILE_SIZE (defs w))) (MAX (FILE_SIZE (defs w))) = true ->
  checkFileSize size w = (Returned tt, w).
Proof.
  intros Hle. rewrite checkFileSize_run.
  now rewrite (paramValueInRange_normal _ (Some size) Hle).
Qed.

(** A size far above the sample [FILE_SIZE.MAX] passes. *)
Lemma checkFileSize_never_throws_huge :
  Js.le (MIN (FILE_SIZE (defs (fresh sample_defs))))
        (MAX (FILE_SIZE (defs (fresh sample_defs)))) = true /\
  checkFileSize 1000000000%float (fresh sample_defs)
    = (Returned tt, fresh sample_defs).
Proof.
  split; [reflexivity|].
  apply (checkFileSize_never_throws (fresh sample_defs) 1000000000%float).
  reflexivity.
Defined.

(** ** [checkParamsCharLength] *)

(** C6: [checkParamsCharLength(undefined, undefined)] returns without
    throwing, whatever the configured ranges: the length of an absent string
    is absent, and an absent value is in every range. *)
Theorem checkParamsCharLength_undefined (w : world) :
  checkParamsCharLength None None w = (Returned tt, w) /\
  Js.opt_length None = None /\
  (forall obj, paramValueInRange obj None = true).
Proof. repeat split. Qed.

(** C7: [checkParamsCharLength author description] throws the invalid-length
    error exactly when it is not the case that both lengths satisfy
    [paramValueInRange] for their ranges; when both do, it returns, with no
    other effect. *)
Theorem checkParamsCharLength_throws_iff (w : world)
    (author description : option string) :
  (result (checkParamsCharLength author description) w = Thrown InvalidLength
   <->
   ~ (paramValueInRange (AUTHOR_CHAR_LENGTH (defs w)) (Js.opt_length author)
        = true /\
      paramValueInRange (DESCRIPTION_CHAR_LENGTH (defs w))
        (Js.opt_length description) = true)) /\
  (paramValueInRange (AUTHOR_CHAR_LENGTH (defs w)) (Js.opt_length author)
     = true /\
   paramValueInRange (DESCRIPTION_CHAR_LENGTH (defs w))
     (Js.opt_length description) = true ->
   checkParamsCharLength author description w = (Returned tt, w)).
Proof.
  unfold result. rewrite checkParamsCharLength_run.
  destruct (paramValueInRange (AUTHOR_CHAR_LENGTH _) _),
           (paramValueInRange (DESCRIPTION_CHAR_LENGTH _) _); simpl;
    (split; [split|]); try tauto; try discriminate;
    try (intros _ [? ?]; discriminate); intros [? ?]; discriminate.
Qed.

(** ** [checkHash] *)

(** With an integer as [HASH_LENGTH], the test of [checkHash] compares the
    number of characters with that integer. *)
Lemma length_matches_integer (d : BoundsConfig) (hash : string) (n : Z) :
  HASH_LENGTH d = Js.of_Z n -> safe_length n ->
  safe_length (Z.of_nat (String.length hash)) ->
  length_matches d hash <-> Z.of_nat (String.length hash) = n.
Proof.
  intros Hn Hs Hl. unfold length_matches, Js.length.
  rewrite Hn, of_Z_strict_eq by assumption. apply Z.eqb_eq.
Qed.

(** C3: [checkHash hash] throws the invalid-hash-format error exactly when
    [hash.length] differs from [defs.HASH_LENGTH]; when the two are equal it
    returns and throws nothing.  It throws no other error.  For an integer
    [HASH_LENGTH], the two are equal exactly when [hash] has that many
    characters. *)
Theorem checkHash_throws_iff (w : world) (hash : string) :
  (result (checkHash hash) w = Thrown InvalidHashFormat <->
     ~ length_matches (defs w) hash) /\
  (length_matches (defs w) hash <-> result (checkHash hash) w = Returned tt) /\
  (forall e, result (checkHash hash) w = Thrown e -> e = InvalidHashFormat) /\
  (forall n : Z,
     HASH_LENGTH (defs w) = Js.of_Z n -> safe_length n ->
     safe_length (Z.of_nat (String.length hash)) ->
     (length_matches (defs w) hash <-> Z.of_nat (String.length hash) = n)).
Proof.
  split; [|split; [|split]].
  4: { intros n. apply length_matches_integer. }
  all: unfold result, length_matches; rewrite checkHash_run;
    destruct (Js.strict_eq _ _); simpl.
  all: try (split; congruence).
  all: intros e; congruence.
Qed.

Example checkHash_sample_short :
  checkHash "@0123456789abcdef" (fresh sample_defs)
    = (Thrown InvalidHashFormat, fresh sample_defs).
Proof. reflexivity. Qed.

Example checkHash_sample_server :
  checkHash hash_server (fresh sample_defs)
    = (Returned tt, emit (fresh sample_defs) ["server"]).
Proof. reflexivity. Qed.

Example checkHash_sample_other :
  checkHash hash_other (fresh sample_defs)
    = (Returned tt, fresh sample_defs).
Proof. reflexivity. Qed.

Lemma first_is (hash p : string) :
  Js.first hash = Some p <-> Js.opt_str_eq (Js.first hash) p = true.
Proof.
  unfold Js.opt_str_eq. destruct (Js.first hash) as [s|].
  - rewrite String.eqb_eq. split; congruence.
  - split; discriminate.
Qed.

(** What [checkHash] logs, for every configuration: the first matching
    [case] wins. *)
Lemma classification_cases (d : BoundsConfig) (hash : string) :
  (Js.first hash = Some (HASH_P2P_PREFIX d) ->
   classification d hash = ["p2p"]) /\
  (Js.first hash <> Some (HASH_P2P_PREFIX d) ->
   Js.first hash = Some (HASH_SERVER_PREFIX d) ->
   classification d hash = ["server"]) /\
  (Js.first hash <> Some (HASH_P2P_PREFIX d) ->
   Js.first hash <> Some (HASH_SERVER_PREFIX d) ->
   classification d hash = []).
Proof.
  unfold classification.
  pose proof (first_is hash (HASH_P2P_PREFIX d)) as Hp.
  pose proof (first_is hash (HASH_SERVER_PREFIX d)) as Hs.
  destruct (Js.opt_str_eq _ (HASH_P2P_PREFIX d)),
           (Js.opt_str_eq _ (HASH_SERVER_PREFIX d));
    intuition congruence.
Qed.

(** C4: for a hash of the required length, under a configuration whose two
    origin tags differ: when [hash[0]] is the p2p tag, [checkHash] logs the
    one line ["p2p"]; when it is the server tag, the one line ["server"];
    otherwise it logs nothing; in all three cases it returns normally. *)
Theorem checkHash_classifies (w : world) (hash : string) :
  length_matches (defs w) hash ->
  HASH_P2P_PREFIX (defs w) <> HASH_SERVER_PREFIX (defs w) ->
  (Js.first hash = Some (HASH_P2P_PREFIX (defs w)) ->
   checkHash hash w = (Returned tt, emit w ["p2p"])) /\
  (Js.first hash = Some (HASH_SERVER_PREFIX (defs w)) ->
   checkHash hash w = (Returned tt, emit w ["server"])) /\
  (Js.first hash <> Some (HASH_P2P_PREFIX (defs w)) ->
   Js.first hash <> Some (HASH_SERVER_PREFIX (defs w)) ->
   checkHash hash w = (Returned tt, w)).
Proof.
  unfold length_matches. intros Hlen Hne. rewrite checkHash_run, Hlen.
  destruct (classification_cases (defs w) hash) as (Hp & Hs & Ho).
  repeat split.
  - intros H. now rewrite (Hp H).
  - intros H. rewrite (Hs); [reflexivity| |exact H].
    rewrite H. intros Heq. apply Hne. congruence.
  - intros H1 H2. now rewrite (Ho H1 H2), emit_nil.
Qed.

(** A hash of 33 characters that starts with the sample p2p tag. *)
Lemma checkHash_classifies_samples :
  length_matches sample_defs hash_p2p /\
  HASH_P2P_PREFIX sample_defs <> HASH_SERVER_PREFIX sample_defs /\
  checkHash hash_p2p (fresh sample_defs)
    = (Returned tt, emit (fresh sample_defs) ["p2p"]).
Proof.
  assert (Hlen : length_matches (defs (fresh sample_defs)) hash_p2p)
    by reflexivity.
  assert (Hne : HASH_P2P_PREFIX (defs (fresh sample_defs))
                <> HASH_SERVER_PREFIX (defs (fresh sample_defs)))
    by discriminate.
  split; [exact Hlen|]. split; [exact Hne|].
  exact (proj1 (checkHash_classifies (fresh sample_defs) hash_p2p Hlen Hne)
           eq_refl).
Defined.

(** ** Purity *)

(** A run that is given by a function of the configuration is pure. *)
Lemma pure_validator_intro {A : Type} (m : M A)
    (f : BoundsConfig -> outcome A * list string) :
  (forall w, m w = (fst (f (defs w)), emit w (snd (f (defs w))))) ->
  pure_validator m.
Proof.
  intros Hm. split.
  - intros w. unfold final. now rewrite Hm.
  - intros w1 w2 Hd. unfold result, final. rewrite !Hm, Hd. simpl.
    split; [reflexivity|]. now exists (snd (f (defs w2))).
Qed.

(** Purity is not a property of every computation of the module: an
    assignment to [defs] changes the configuration, and what a read of the
    environment returns is not determined by the configuration. *)
Lemma assign_not_pure :
  ~ preserves_config (assign (fun _ => long_tag_defs)).
Proof.
  intros H. specialize (H (fresh sample_defs)).
  apply (f_equal HASH_P2P_PREFIX) in H. discriminate H.
Qed.

Lemma getenv_not_pure : ~ determined_by_config (getenv "TZ").
Proof.
  intros H.
  destruct (H {| defs := sample_defs; logger := []; env := [] |}
              {| defs := sample_defs; logger := []; env := [("TZ", "UTC")] |}
              eq_refl) as [Hres _].
  discriminate Hres.
Qed.

Lemma assign_then_check_not_pure :
  ~ pure_validator
      (bind (assign (fun _ => long_tag_defs)) (fun _ => checkFileSize 0%float)).
Proof.
  intros [H _]. specialize (H (fresh sample_defs)).
  apply (f_equal HASH_P2P_PREFIX) in H. discriminate H.
Qed.

Lemma paramValueInRange_at_run (obj : BoundsConfig -> RangeObj)
    (value : Js.optional) (w : world) :
  paramValueInRange_at obj value w
    = (Returned (paramValueInRange (obj (defs w)) value), w).
Proof.
  unfold paramValueInRange_at, paramValueInRange, bind, read, ret.
  destruct (Js.truthy value); simpl; [|reflexivity].
  destruct (Js.opt_gt value _); simpl; [|reflexivity].
  destruct (Js.opt_lt value _); reflexivity.
Qed.

(** C8: each validator leaves the configuration unchanged, and its outcome
    (return or the error thrown) and the lines it logs are the same in any
    two worlds with the same configuration, whatever their logs and
    environments: they depend on the configuration and the arguments only.
    This holds of [checkHash], [checkParamsCharLength], [checkFileSize] and
    of a call of [paramValueInRange] on a range passed by reference, whose
    answer is the boolean computed from the fields of that range. *)
Theorem validators_pure :
  (forall hash, pure_validator (checkHash hash)) /\
  (forall author description,
     pure_validator (checkParamsCharLength author description)) /\
  (forall size, pure_validator (checkFileSize size)) /\
  (forall obj value,
     pure_validator (paramValueInRange_at obj value) /\
     forall w, result (paramValueInRange_at obj value) w
               = Returned (paramValueInRange (obj (defs w)) value)).
Proof.
  split; [|split; [|split]].
  - intros hash.
    apply (pure_validator_intro _ (fun d =>
      if Js.strict_eq (Js.length hash) (HASH_LENGTH d)
      then (Returned tt, classification d hash)
      else (Thrown InvalidHashFormat, []))).
    intros w. rewrite checkHash_run.
    destruct (Js.strict_eq _ _); simpl; now rewrite ?emit_nil.
  - intros author description.
    apply (pure_validator_intro _ (fun d =>
      if paramValueInRange (AUTHOR_CHAR_LENGTH d) (Js.opt_length author)
         && paramValueInRange (DESCRIPTION_CHAR_LENGTH d)
              (Js.opt_length description)
      then (Returned tt, [])
      else (Thrown InvalidLength, []))).
    intros w. rewrite checkParamsCharLength_run.
    destruct (_ && _); simpl; now rewrite emit_nil.
  - intros size.
    apply (pure_validator_intro _ (fun d =>
      if paramValueInRange (FILE_SIZE d) (Some size)
      then (Returned tt, [])
      else (Thrown FileSizeNotAllowed, []))).
    intros w. rewrite checkFileSize_run.
    destruct (paramValueInRange _ _); simpl; now rewrite emit_nil.
  - intros obj value. split.
    + apply (pure_validator_intro _ (fun d =>
        (Returned (paramValueInRange (obj d) value), []))).
      intros w. rewrite paramValueInRange_at_run. simpl.
      now rewrite emit_nil.
    + intros w. unfold result. now rewrite paramValueInRange_at_run.
Qed.

(** ** More on the order of numbers *)

Lemma SFltb_irrefl (a : spec_float) : SFltb a a = false.
Proof.
  unfold SFltb. destruct a as [s|s| |s m e]; simpl; try reflexivity;
    destruct s; try reflexivity;
    rewrite Z.compare_refl, pos_cont_cmp, Pos.compare_refl; reflexivity.
Qed.

Lemma lt_irrefl (x : Js.number) : Js.lt x x = false.
Proof. unfold Js.lt. rewrite ltb_spec. apply SFltb_irrefl. Qed.

(** Nothing is above [Infinity] and nothing is below [-Infinity]. *)
Lemma lt_infinity (y : Js.number) : Js.lt infinity y = false.
Proof.
  unfold Js.lt. rewrite ltb_spec.
  change (Prim2SF infinity) with (S754_infinity false).
  unfold SFltb. destruct (Prim2SF y) as [s|s| |s m e]; simpl;
    try reflexivity; destruct s; reflexivity.
Qed.

Lemma gt_neg_infinity (y : Js.number) : Js.gt neg_infinity y = false.
Proof.
  unfold Js.gt. rewrite ltb_spec.
  change (Prim2SF neg_infinity) with (S754_infinity true).
  unfold SFltb. destruct (Prim2SF y) as [s|s| |s m e]; simpl;
    try reflexivity; destruct s; reflexivity.
Qed.

(** A length is truthy exactly when it is not zero. *)
Lemma to_boolean_of_Z (n : Z) :
  safe_length n -> Js.to_boolean (Js.of_Z n) = negb (n =? 0)%Z.
Proof.
  intros Hn. unfold Js.to_boolean, is_nan, is_zero.
  change zero with (Js.of_Z 0).
  pose proof (of_Z_strict_eq n n Hn Hn) as Hnn.
  pose proof (of_Z_strict_eq n 0 Hn ltac:(unfold safe_length; lia)) as Hn0.
  unfold Js.strict_eq in Hnn, Hn0. rewrite Hnn, Hn0, Z.eqb_refl.
  reflexivity.
Qed.

(** On lengths, the range test is a test on integers. *)
Lemma paramValueInRange_of_Z (lo hi n : Z) :
  safe_length lo -> safe_length hi -> safe_length n ->
  paramValueInRange {| MIN := Js.of_Z lo; MAX := Js.of_Z hi |}
    (Some (Js.of_Z n)) = negb ((hi <? n)%Z && (n <? lo)%Z).
Proof.
  intros Hlo Hhi Hn. unfold paramValueInRange. simpl.
  unfold Js.gt. fold (Js.lt (Js.of_Z hi) (Js.of_Z n)).
  rewrite to_boolean_of_Z, !of_Z_lt by assumption.
  destruct (Z.eqb_spec n 0) as [->|Hne]; simpl.
  - destruct (Z.ltb_spec hi 0) as [H|H]; [|reflexivity].
    unfold safe_length in Hhi. lia.
  - now destruct (hi <? n)%Z, (n <? lo)%Z.
Qed.

(** Zero is accepted by every range, and so is [undefined]. *)
Lemma paramValueInRange_zero_true (obj : RangeObj) :
  paramValueInRange obj (Some 0%float) = true /\
  paramValueInRange obj None = true.
Proof. split; reflexivity. Qed.

(** ** Further properties of the validators *)

(** X1: under a configuration whose author and description ranges both have
    [MIN <= MAX], [checkParamsCharLength] returns for every pair of arguments,
    present or absent, of any length, and has no other effect. *)
Theorem checkParamsCharLength_never_throws (w : world)
    (author description : option string) :
  Js.le (MIN (AUTHOR_CHAR_LENGTH (defs w)))
        (MAX (AUTHOR_CHAR_LENGTH (defs w))) = true ->
  Js.le (MIN (DESCRIPTION_CHAR_LENGTH (defs w)))
        (MAX (DESCRIPTION_CHAR_LENGTH (defs w))) = true ->
  checkParamsCharLength author description w = (Returned tt, w).
Proof.
  intros Ha Hd. rewrite checkParamsCharLength_run.
  now rewrite (paramValueInRange_normal _ _ Ha),
              (paramValueInRange_normal _ _ Hd).
Qed.

(** An author of one character and a description of none, both below the
    sample minimum, pass. *)
Lemma checkParamsCharLength_never_throws_short :
  checkParamsCharLength (Some "a") (Some "") (fresh sample_defs)
    = (Returned tt, fresh sample_defs).
Proof.
  apply (checkParamsCharLength_never_throws (fresh sample_defs)
           (Some "a") (Some "")); reflexivity.
Defined.

(** X2: an empty string counts like an absent one, for every configuration
    and whatever the other argument is; so two empty strings always pass. *)
Theorem checkParamsCharLength_empty (w : world)
    (author description : option string) :
  checkParamsCharLength (Some "") description w
    = checkParamsCharLength None description w /\
  checkParamsCharLength author (Some "") w
    = checkParamsCharLength author None w /\
  checkParamsCharLength (Some "") (Some "") w = (Returned tt, w).
Proof.
  rewrite !checkParamsCharLength_run.
  change (Js.opt_length (Some "")) with (Some 0%float).
  pose proof (fun obj => proj1 (paramValueInRange_zero_true obj)) as Hz.
  rewrite !Hz. repeat split.
Qed.

(** X3: [checkFileSize] returns on [0], [-0], [NaN], [Infinity] and
    [-Infinity] under every configuration, also one whose [FILE_SIZE] has
    [MIN > MAX]. *)
Theorem checkFileSize_special_sizes (w : world) :
  checkFileSize 0%float w = (Returned tt, w) /\
  checkFileSize (-0)%float w = (Returned tt, w) /\
  checkFileSize nan w = (Returned tt, w) /\
  checkFileSize infinity w = (Returned tt, w) /\
  checkFileSize neg_infinity w = (Returned tt, w).
Proof.
  rewrite !checkFileSize_run. unfold paramValueInRange. simpl.
  rewrite lt_infinity, gt_neg_infinity, andb_false_r. repeat split.
Qed.

(** X4: the comparisons are strict: a value equal to [MIN] or to [MAX] is
    accepted by every range, and [checkFileSize] returns on either bound of
    the configured [FILE_SIZE]. *)
Theorem bounds_accepted (obj : RangeObj) (w : world) :
  paramValueInRange obj (Some (MIN obj)) = true /\
  paramValueInRange obj (Some (MAX obj)) = true /\
  checkFileSize (MIN (FILE_SIZE (defs w))) w = (Returned tt, w) /\
  checkFileSize (MAX (FILE_SIZE (defs w))) w = (Returned tt, w).
Proof.
  assert (Hmin : forall r, paramValueInRange r (Some (MIN r)) = true).
  { intros r. unfold paramValueInRange. simpl.
    now rewrite lt_irrefl, andb_false_r. }
  assert (Hmax : forall r, paramValueInRange r (Some (MAX r)) = true).
  { intros r. unfold paramValueInRange. simpl. unfold Js.gt.
    fold (Js.lt (MAX r) (MAX r)).
    now rewrite lt_irrefl, andb_false_r. }
  split; [apply Hmin|]. split; [apply Hmax|].
  rewrite !checkFileSize_run, Hmin, Hmax. split; reflexivity.
Qed.

(** X5: what the validators write.  [checkParamsCharLength] and
    [checkFileSize] never change the world.  [checkHash] leaves it unchanged
    or appends the one line ["p2p"] or the one line ["server"], and leaves it
    unchanged whenever it throws. *)
Theorem validators_log_discipline (w : world) :
  (forall author description,
     final (checkParamsCharLength author description) w = w) /\
  (forall size, final (checkFileSize size) w = w) /\
  (forall hash,
     (final (checkHash hash) w = w \/
      final (checkHash hash) w = emit w ["p2p"] \/
      final (checkHash hash) w = emit w ["server"]) /\
     (forall e, result (checkHash hash) w = Thrown e ->
                final (checkHash hash) w = w)).
Proof.
  split; [|split].
  - intros a d. unfold final. rewrite checkParamsCharLength_run.
    now destruct (_ && _).
  - intros size. unfold final. rewrite checkFileSize_run.
    now destruct (paramValueInRange _ _).
  - intros hash. unfold final, result. rewrite checkHash_run.
    destruct (Js.strict_eq _ _); simpl.
    + split; [|discriminate]. unfold classification.
      destruct (Js.opt_str_eq _ (HASH_P2P_PREFIX _)); [tauto|].
      destruct (Js.opt_str_eq _ (HASH_SERVER_PREFIX _)); [tauto|].
      left. apply emit_nil.
    + split; [now left | reflexivity].
Qed.

(** X6: the empty hash is never classified, whatever the tags are, the empty
    string included: [checkHash("")] leaves the log as it is, and it returns
    exactly when [0 === defs.HASH_LENGTH]. *)
Theorem checkHash_empty (w : world) :
  final (checkHash "") w = w /\
  (result (checkHash "") w = Returned tt <->
     Js.strict_eq 0%float (HASH_LENGTH (defs w)) = true) /\
  (result (checkHash "") w = Thrown InvalidHashFormat <->
     Js.strict_eq 0%float (HASH_LENGTH (defs w)) = false).
Proof.
  unfold final, result. rewrite checkHash_run.
  change (Js.length "") with 0%float.
  destruct (Js.strict_eq _ _); simpl; rewrite ?emit_nil;
    repeat split; congruence.
Qed.

Lemma emit_inj (w : world) (l1 l2 : list string) :
  emit w l1 = emit w l2 -> l1 = l2.
Proof.
  unfold emit. intros H. injection H as H. now apply app_inv_head in H.
Qed.

Lemma first_length (hash p : string) :
  Js.first hash = Some p -> String.length p = 1%nat.
Proof.
  destruct hash as [|c rest]; simpl; [discriminate|].
  intros H. injection H as <-. reflexivity.
Qed.

(** X7: for a hash of the required length and every configuration, equal
    tags included, ["p2p"] is logged exactly when [hash[0]] is the p2p tag,
    and ["server"] exactly when [hash[0]] is the server tag and not the p2p
    tag: the first [case] wins, so with equal tags ["server"] is never
    logged. *)
Theorem checkHash_logs_iff (w : world) (hash : string) :
  length_matches (defs w) hash ->
  (final (checkHash hash) w = emit w ["p2p"] <->
     Js.first hash = Some (HASH_P2P_PREFIX (defs w))) /\
  (final (checkHash hash) w = emit w ["server"] <->
     Js.first hash = Some (HASH_SERVER_PREFIX (defs w)) /\
     Js.first hash <> Some (HASH_P2P_PREFIX (defs w))) /\
  (HASH_P2P_PREFIX (defs w) = HASH_SERVER_PREFIX (defs w) ->
   final (checkHash hash) w <> emit w ["server"]).
Proof.
  unfold length_matches. intros Hlen. unfold final.
  rewrite checkHash_run, Hlen. simpl.
  destruct (classification_cases (defs w) hash) as (Hp & Hs & Ho).
  assert (Hdec : forall p, Js.first hash = Some p \/ Js.first hash <> Some p).
  { intros p. destruct (Js.opt_str_eq (Js.first hash) p) eqn:E.
    - left. now apply first_is.
    - right. intros H. apply first_is in H. congruence. }
  destruct (Hdec (HASH_P2P_PREFIX (defs w))) as [H1|H1];
    destruct (Hdec (HASH_SERVER_PREFIX (defs w))) as [H2|H2];
    rewrite ?(Hp H1), ?(Hs H1 H2), ?(Ho H1 H2);
    (split; [|split]);
    try (split; [intros H; apply emit_inj in H; try discriminate|]);
    try tauto; try reflexivity;
    try (intros _ H; apply emit_inj in H; discriminate);
    try (intros [_ H]; contradiction);
    try (intros Heq; exfalso; congruence).
Qed.

(** A hash that starts with the sample server tag logs ["server"]. *)
Lemma checkHash_logs_iff_server :
  final (checkHash hash_server) (fresh sample_defs)
    = emit (fresh sample_defs) ["server"].
Proof.
  apply (proj1 (proj2 (checkHash_logs_iff (fresh sample_defs) hash_server
                         eq_refl))).
  split; [reflexivity | discriminate].
Defined.

(** X8: a tag that is not exactly one character long never matches: its
    line is never logged, for any hash. *)
Theorem checkHash_tag_length (w : world) (hash : string) :
  (String.length (HASH_P2P_PREFIX (defs w)) <> 1%nat ->
   final (checkHash hash) w <> emit w ["p2p"]) /\
  (String.length (HASH_SERVER_PREFIX (defs w)) <> 1%nat ->
   final (checkHash hash) w <> emit w ["server"]).
Proof.
  unfold final. rewrite checkHash_run.
  destruct (Js.strict_eq _ _); simpl.
  - unfold classification.
    destruct (Js.opt_str_eq _ (HASH_P2P_PREFIX _)) eqn:E1;
      [|destruct (Js.opt_str_eq _ (HASH_SERVER_PREFIX _)) eqn:E2];
      split; intros Hlen H; apply emit_inj in H; try discriminate.
    + apply first_is, first_length in E1. contradiction.
    + apply first_is, first_length in E2. contradiction.
  - split; intros _ H; rewrite <- (emit_nil w) in H at 1;
      apply emit_inj in H; discriminate.
Qed.



(** X10: with integer bounds and an integer size, [checkFileSize] throws
    exactly when the size lies strictly between [FILE_SIZE.MAX] and
    [FILE_SIZE.MIN]. *)
Theorem checkFileSize_integers (w : world) (lo hi n : Z) :
  FILE_SIZE (defs w) = {| MIN := Js.of_Z lo; MAX := Js.of_Z hi |} ->
  safe_length lo -> safe_length hi -> safe_length n ->
  result (checkFileSize (Js.of_Z n)) w = Thrown FileSizeNotAllowed <->
  (hi < n < lo)%Z.
Proof.
  intros Hr Hlo Hhi Hn. unfold result.
  rewrite checkFileSize_run, Hr, paramValueInRange_of_Z by assumption.
  destruct (Z.ltb_spec hi n), (Z.ltb_spec n lo); simpl;
    split; try discriminate; try reflexivity; try lia.
Qed.

(** With [FILE_SIZE] set to [{MIN: 10, MAX: 1}], size [5] is rejected. *)
Lemma checkFileSize_integers_swapped :
  result (checkFileSize (Js.of_Z 5)) (fresh degenerate_defs)
    = Thrown FileSizeNotAllowed.
Proof.
  apply (checkFileSize_integers (fresh degenerate_defs) 10 1 5);
    try reflexivity; unfold safe_length; simpl; lia.
Defined.

(** X14: [checkHash] looks at the length of a hash and at nothing else to
    accept or reject it: two hashes with the same number of characters get
    the same outcome. *)
Theorem checkHash_length_only (w : world) (h1 h2 : string) :
  String.length h1 = String.length h2 ->
  result (checkHash h1) w = result (checkHash h2) w.
Proof.
  intros Hlen. unfold result. rewrite !checkHash_run.
  unfold Js.length. rewrite Hlen.
  now destruct (Js.strict_eq _ _).
Qed.

(** Two hashes of 33 characters with different tags both return. *)
Lemma checkHash_length_only_samples :
  result (checkHash hash_p2p) (fresh sample_defs)
    = result (checkHash hash_other) (fresh sample_defs).
Proof.
  apply (checkHash_length_only (fresh sample_defs) hash_p2p hash_other).
  reflexivity.
Defined.

(** ** The theme toggle *)

Lemma toggled_dark (theme : option string) :
  toggled theme = "light" <-> theme = Some "dark".
Proof.
  unfold toggled. destruct (Js.opt_str_eq theme "dark") eqn:E.
  - split; [|reflexivity]. intros _. destruct theme as [t|]; simpl in E;
      [|discriminate]. apply String.eqb_eq in E. now subst.
  - split; [discriminate|]. intros ->. discriminate.
Qed.

Section ThemeToggleFacts.

Context {store : Type}.
Variable theme_of : store -> option string.
Variable setTheme : string -> store -> store.
Hypothesis effect : takes_effect theme_of setTheme.

Lemma click_theme (s : store) :
  theme_of (click theme_of setTheme s) = Some (toggled (theme_of s)).
Proof. unfold click, useColorMode. simpl. apply effect. Qed.

(** The two cases of a click. *)
Lemma click_cases (s : store) :
  (theme_of s = Some "dark" /\
   theme_of (click theme_of setTheme s) = Some "light") \/
  (theme_of s <> Some "dark" /\
   theme_of (click theme_of setTheme s) = Some "dark").
Proof.
  rewrite click_theme. pose proof (toggled_dark (theme_of s)) as Hd.
  unfold toggled in *. destruct (Js.opt_str_eq (theme_of s) "dark").
  - left. split; [now apply Hd | reflexivity].
  - right. split; [|reflexivity]. intros H. apply Hd in H. discriminate.
Qed.

End ThemeToggleFacts.

(** X11: where [setTheme] takes effect, a click leaves the theme on
    ["light"] exactly when the rendered theme was ["dark"], and on ["dark"]
    exactly when it was anything else, a name such as ["system"]
    included. *)
Theorem click_lands (store : Type) (theme_of : store -> option string)
    (setTheme : string -> store -> store) (s : store) :
  takes_effect theme_of setTheme ->
  (theme_of (click theme_of setTheme s) = Some "light" <->
     theme_of s = Some "dark") /\
  (theme_of (click theme_of setTheme s) = Some "dark" <->
     theme_of s <> Some "dark").
Proof.
  intros effect.
  destruct (click_cases theme_of setTheme effect s) as [[Hs H]|[Hs H]];
    rewrite H.
  - split; [tauto|]. split; [discriminate | intros Hn; now elim Hn].
  - split; [|tauto]. split; [discriminate | intros Hd; now elim Hs].
Qed.

(** A click while the theme is ["system"] sets it to ["dark"]. *)
Lemma click_lands_system :
  plain_theme_of (click plain_theme_of plain_setTheme (Some "system"))
    = Some "dark".
Proof.
  apply (proj2 (click_lands (option string) plain_theme_of plain_setTheme
                  (Some "system") (fun t s => eq_refl))).
  discriminate.
Defined.

(** X12: where [setTheme] takes effect, two clicks bring back the theme
    exactly when it was ["dark"] or ["light"]; from any other theme they end
    on ["light"]; and a third click leaves the theme where the first did. *)
Theorem click_twice (store : Type) (theme_of : store -> option string)
    (setTheme : string -> store -> store) (s : store) :
  takes_effect theme_of setTheme ->
  let click := click theme_of setTheme in
  (theme_of (click (click s)) = theme_of s <->
     theme_of s = Some "dark" \/ theme_of s = Some "light") /\
  (theme_of s <> Some "dark" -> theme_of (click (click s)) = Some "light") /\
  theme_of (click (click (click s))) = theme_of (click s).
Proof.
  intros effect. cbv zeta.
  rewrite !(click_theme theme_of setTheme effect).
  destruct (click_cases theme_of setTheme effect s) as [[Hs H]|[Hs H]];
    rewrite (click_theme theme_of setTheme effect) in H;
    injection H as H; rewrite H, ?Hs;
    repeat first
      [ progress change (toggled (Some "dark")) with "light"
      | progress change (toggled (Some "light")) with "dark" ].
  - repeat split; try tauto; try (intros Hn; now elim Hn).
  - repeat split.
    + intros Heq. right. now symmetry.
    + intros [Hd|Hl]; [now elim Hs | now symmetry].
Qed.

(** Two clicks from ["light"] come back to ["light"]. *)
Lemma click_twice_light :
  plain_theme_of
    (click plain_theme_of plain_setTheme
       (click plain_theme_of plain_setTheme (Some "light")))
    = plain_theme_of (Some "light").
Proof.
  exact (proj2 (proj1 (click_twice (option string) plain_theme_of
                         plain_setTheme (Some "light")
                         (fun t s => eq_refl)))
               (or_intror eq_refl)).
Defined.
